(** * A path-addressed relay: [proxy_server.js]

    The program is one function, [requestHandler(req, res)], together with
    the two callbacks it registers on the outbound request.  The handler is
    embedded as a computation in a small state-and-exception monad over the
    per-request world: the calls made on [res], the calls made on the
    outbound request, the console, and the listeners currently registered.
    The callbacks are embedded as further computations, and the runtime
    delivering events to registered listeners is the function [emit].

    Functions of the Node.js library the handler calls are not part of the
    program.  [url.parse] is a parameter of the development; [writeHead],
    [write], [end], [request], [on] and [pipe] are modelled by the calls they
    record and by the part of their documented contract the handler relies
    on. *)

From stdpp Require Import base option list gmap strings.
From Stdlib Require Import ZArith Ascii.

(** ** JavaScript values *)

(** A header value in a Node.js headers object: a string, or an array of
    strings (as for [set-cookie]). *)
Inductive HeaderValue :=
  | HeaderString (s : string)
  | HeaderArray (l : list string).

#[global] Instance HeaderValue_eq_dec : EqDecision HeaderValue.
Proof. solve_decision. Defined.

(** A headers object: a JavaScript object used as a map from property names
    to values.  [req.headers] and [proxyRes.headers] are such objects. *)
Abbreviation Headers := (gmap string HeaderValue).

(** A JavaScript [Error]; the program reads its [message] only. *)
Record Error := { message : string }.

(** The outcome of evaluating a JavaScript expression or statement list. *)
Inductive Completion (A : Type) :=
  | Normal (a : A)
  | Throw (e : Error).
Arguments Normal {A} a.
Arguments Throw {A} e.

(** [s.slice(1)]: the string without its first character. *)
Definition slice1 (s : string) : string :=
  match s with
  | EmptyString => EmptyString
  | String _ rest => rest
  end.

(** [!s] for a string [s]: only the empty string is falsy. *)
Definition not_string (s : string) : bool :=
  match s with
  | EmptyString => true
  | String _ _ => false
  end.

(** [v || alt] for [v] a string or [null]: [v] when it is a non-empty
    string, otherwise [alt]. *)
Definition or_else {A} (inj : string → A) (v : option string) (alt : A) : A :=
  match v with
  | Some (String c rest) => inj (String c rest)
  | Some EmptyString => alt
  | None => alt
  end.

(** [v !== s] for [v] a string or [null] and [s] a string literal. *)
Definition strict_ne (v : option string) (s : string) : bool :=
  negb (bool_decide (v = Some s)).

(** [v === s]. *)
Definition strict_eq (v : option string) (s : string) : bool :=
  bool_decide (v = Some s).

(** ** The objects the handler reads and builds *)

(** The inbound request [req]: the fields the handler reads.  In
    [req.headers] the runtime stores each header under its lower-cased name,
    so the [Host] header is the property [host].  The body arrives later, as
    events. *)
Module Req.
Record t := mk { url : string; method : string; headers : Headers }.
End Req.

(** The outbound response [proxyRes]: the fields the callback reads. *)
Module ProxyRes.
Record t := mk { statusCode : Z; headers : Headers }.
End ProxyRes.

(** The object returned by [url.parse]: the fields the handler reads, each a
    string or [null]. *)
Module Url.
Record t := mk {
  protocol : option string;
  hostname : option string;
  port : option string;
  path : option string
}.
End Url.

(** The two outbound transports, [require('http')] and [require('https')]. *)
Inductive ProtocolModule := http | https.

(** The value of [options.port]: the string taken from the parsed URL, or one
    of the numbers 443 and 80. *)
Inductive PortValue :=
  | PortString (s : string)
  | PortNumber (n : Z).

(** The [options] object handed to [protocolModule.request]. *)
Module Options.
Record t := mk {
  hostname : option string;
  port : PortValue;
  path : option string;
  method : string;
  headers : Headers
}.
End Options.

(** ** The per-request world *)

(** A call made on the response object [res]. *)
Inductive ResCall :=
  | WriteHead (statusCode : Z) (headers : Headers)
  | WriteChunk (chunk : string)
  | EndCall (data : option string).

(** A call made on the outbound side: the request itself, then the writes
    of [req.pipe(proxyReq)]. *)
Inductive OutCall :=
  | Request (protocolModule : ProtocolModule) (options : Options.t)
  | ReqWrite (chunk : string)
  | ReqEnd.

(** A console line, from [console.log] or [console.error]. *)
Inductive LogLine :=
  | Log (s : string)
  | LogError (s : string).

Record World := mkWorld {
  (** [res.headersSent] *)
  headersSent : bool;
  (** the calls made on [res], oldest first *)
  client : list ResCall;
  (** the calls made on the outbound side, oldest first *)
  outbound : list OutCall;
  (** the console, oldest line first *)
  console : list LogLine;
  (** the one-time ['response'] listener of [proxyReq] is registered *)
  response_listener : bool;
  (** the ['error'] listener of [proxyReq] is registered *)
  error_listener : bool;
  (** [req.pipe(proxyReq)] is active *)
  req_pipe : bool;
  (** [proxyRes.pipe(res)] is active *)
  res_pipe : bool;
  (** an exception left a handler or callback uncaught *)
  uncaught : option Error
}.

(** The world in which the runtime calls [requestHandler]. *)
Definition fresh : World :=
  {| headersSent := false; client := []; outbound := []; console := [];
     response_listener := false; error_listener := false;
     req_pipe := false; res_pipe := false; uncaught := None |}.

(** ** The monad of statements *)

Definition Js (A : Type) : Type := World → Completion A * World.

#[global] Instance Js_ret : MRet Js := λ A a w, (Normal a, w).

#[global] Instance Js_bind : MBind Js := λ A B f m w,
  match m w with
  | (Normal a, w') => f a w'
  | (Throw e, w') => (Throw e, w')
  end.

(** Lifting an external call that returns or throws. *)
Definition call {A} (c : Completion A) : Js A := λ w, (c, w).

Definition reads {A} (f : World → A) : Js A := λ w, (Normal (f w), w).

(** ** Text constants *)

(** The double-quote character and the line feed. *)
Definition dq : string := String (ascii_of_nat 34) EmptyString.
Definition nl : string := String (ascii_of_nat 10) EmptyString.

(** The template literal passed to [res.end] on the help path, line by
    line. *)
Definition help_page : string :=
    nl +:+
    "            <html>" +:+ nl +:+
    "                <body style=" +:+ dq +:+ "font-family: sans-serif; background-color: #0d1117; color: white; padding: 20px;" +:+ dq +:+ ">" +:+ nl +:+
    "                    <h2>Simple Node.js Web Proxy</h2>" +:+ nl +:+
    "                    <p>To use, prepend the full URL you want to access to the proxy's address:</p>" +:+ nl +:+
    "                    <p style=" +:+ dq +:+ "background-color: #21262d; padding: 10px; border-radius: 6px;" +:+ dq +:+ ">" +:+ nl +:+
    "                        <strong>Example (replace this address with your deployed domain):</strong> [YOUR_VERCEL_DOMAIN]/https://www.google.com" +:+ nl +:+
    "                    </p>" +:+ nl +:+
    "                    <p>This proxy forwards GET requests and returns the content.</p>" +:+ nl +:+
    "                </body>" +:+ nl +:+
    "            </html>" +:+ nl +:+
    "        ".

(** ** The library calls the handler makes *)

(** The error [writeHead] raises when the headers have been sent. *)
Definition ERR_HTTP_HEADERS_SENT : Error :=
  {| message := "Cannot write headers after they are sent to the client" |}.

(** The headers sent when a body is written before any [writeHead]: status
    200 and no header of the program's. *)
Definition implicit_head (w : World) : list ResCall :=
  if headersSent w then [] else [WriteHead 200 ∅].

(** [res.writeHead(statusCode, headers)]: it throws when the headers were
    sent.  It also refuses a status code outside 100..999; the program
    itself passes 200, 400 and 500, and the statements about the head of a
    relayed response take [accepted_status] as a hypothesis. *)
Definition res_writeHead (statusCode : Z) (h : Headers) : Js unit := λ w,
  if headersSent w then (Throw ERR_HTTP_HEADERS_SENT, w)
  else (Normal tt,
        mkWorld true (client w ++ [WriteHead statusCode h]) (outbound w)
          (console w) (response_listener w) (error_listener w)
          (req_pipe w) (res_pipe w) (uncaught w)).

(** [res.write(chunk)], as [pipe] calls it. *)
Definition res_write (chunk : string) : Js unit := λ w,
  (Normal tt,
   mkWorld true (client w ++ implicit_head w ++ [WriteChunk chunk])
     (outbound w) (console w) (response_listener w) (error_listener w)
     (req_pipe w) (res_pipe w) (uncaught w)).

(** [res.end(data)], and [res.end()] when [data] is absent. *)
Definition res_end (data : option string) : Js unit := λ w,
  (Normal tt,
   mkWorld true (client w ++ implicit_head w ++ [EndCall data])
     (outbound w) (console w) (response_listener w) (error_listener w)
     (req_pipe w) (res_pipe w) (uncaught w)).

(** [res.headersSent] *)
Definition res_headersSent : Js bool := reads headersSent.

(** [console.log(s)] and [console.error(s)] *)
Definition console_log (s : string) : Js unit := λ w,
  (Normal tt,
   mkWorld (headersSent w) (client w) (outbound w) (console w ++ [Log s])
     (response_listener w) (error_listener w) (req_pipe w) (res_pipe w)
     (uncaught w)).

Definition console_error (s : string) : Js unit := λ w,
  (Normal tt,
   mkWorld (headersSent w) (client w) (outbound w) (console w ++ [LogError s])
     (response_listener w) (error_listener w) (req_pipe w) (res_pipe w)
     (uncaught w)).

(** [protocolModule.request(options, callback)]: the request is made and the
    callback becomes a one-time listener of ['response'].  The events of
    [proxyReq] exist only when this call has returned a request. *)
Definition request (protocolModule : ProtocolModule) (options : Options.t)
  : Js unit := λ w,
  (Normal tt,
   mkWorld (headersSent w) (client w)
     (outbound w ++ [Request protocolModule options]) (console w)
     true (error_listener w) (req_pipe w) (res_pipe w) (uncaught w)).

(** [proxyReq.on('error', callback)] *)
Definition proxyReq_on_error : Js unit := λ w,
  (Normal tt,
   mkWorld (headersSent w) (client w) (outbound w) (console w)
     (response_listener w) true (req_pipe w) (res_pipe w) (uncaught w)).

(** [req.pipe(proxyReq, { end: true })] *)
Definition req_pipe_proxyReq : Js unit := λ w,
  (Normal tt,
   mkWorld (headersSent w) (client w) (outbound w) (console w)
     (response_listener w) (error_listener w) true (res_pipe w) (uncaught w)).

(** [proxyRes.pipe(res, { end: true })] *)
Definition proxyRes_pipe_res : Js unit := λ w,
  (Normal tt,
   mkWorld (headersSent w) (client w) (outbound w) (console w)
     (response_listener w) (error_listener w) (req_pipe w) true (uncaught w)).

(** [proxyReq.write(chunk)] and [proxyReq.end()], as [pipe] calls them. *)
Definition proxyReq_write (chunk : string) : Js unit := λ w,
  (Normal tt,
   mkWorld (headersSent w) (client w) (outbound w ++ [ReqWrite chunk])
     (console w) (response_listener w) (error_listener w) (req_pipe w)
     (res_pipe w) (uncaught w)).

Definition proxyReq_end : Js unit := λ w,
  (Normal tt,
   mkWorld (headersSent w) (client w) (outbound w ++ [ReqEnd]) (console w)
     (response_listener w) (error_listener w) false (res_pipe w) (uncaught w)).

(** The one-time ['response'] listener is removed before it is called. *)
Definition remove_response_listener : Js unit := λ w,
  (Normal tt,
   mkWorld (headersSent w) (client w) (outbound w) (console w)
     false (error_listener w) (req_pipe w) (res_pipe w) (uncaught w)).

(** A pipe whose source has ended is taken down. *)
Definition unpipe_res : Js unit := λ w,
  (Normal tt,
   mkWorld (headersSent w) (client w) (outbound w) (console w)
     (response_listener w) (error_listener w) (req_pipe w) false (uncaught w)).

(** A pipe whose destination has emitted ['error'] is taken down. *)
Definition unpipe_req : Js unit := λ w,
  (Normal tt,
   mkWorld (headersSent w) (client w) (outbound w) (console w)
     (response_listener w) (error_listener w) false (res_pipe w) (uncaught w)).

(** ** The program *)

Section Handler.

(** [url.parse], of the Node.js library: it returns the parsed object or
    throws. *)
Variable url_parse : string → Completion Url.t.

(** The headers object literals of the program. *)
Definition text_html : Headers := {[ "Content-Type" := HeaderString "text/html" ]}.
Definition text_plain : Headers := {[ "Content-Type" := HeaderString "text/plain" ]}.

(** [delete options.headers.host] *)
Definition delete_headers_host (options : Options.t) : Options.t :=
  {| Options.hostname := Options.hostname options;
     Options.port := Options.port options;
     Options.path := Options.path options;
     Options.method := Options.method options;
     Options.headers := delete "host" (Options.headers options) |}.

(** [function requestHandler(req, res)] *)
Definition requestHandler (req : Req.t) : Js unit :=
  let targetUrl := slice1 (Req.url req) in
  if not_string targetUrl then
    res_writeHead 200 text_html ;;
    res_end (Some help_page)
  else
    parsedUrl ← call (url_parse targetUrl);
    if strict_ne (Url.protocol parsedUrl) "http:"
       && strict_ne (Url.protocol parsedUrl) "https:" then
      res_writeHead 400 text_plain ;;
      res_end (Some "Error: Only http or https protocols are supported.")
    else
      let isHttps := strict_eq (Url.protocol parsedUrl) "https:" in
      let protocolModule := if isHttps then https else http in
      (* [{ ...req.headers }] copies the properties of [req.headers] into a
         new object: the same map, and [req.headers] is not touched by the
         [delete] below. *)
      let options :=
        {| Options.hostname := Url.hostname parsedUrl;
           Options.port :=
             or_else PortString (Url.port parsedUrl)
               (if isHttps then PortNumber 443 else PortNumber 80);
           Options.path := Url.path parsedUrl;
           Options.method := Req.method req;
           Options.headers := Req.headers req |} in
      let options := delete_headers_host options in
      console_log ("[Proxy] Forwarding " +:+ Req.method req
                   +:+ " request to: " +:+ targetUrl) ;;
      request protocolModule options ;;
      proxyReq_on_error ;;
      req_pipe_proxyReq.

(** The callback given to [protocolModule.request]. *)
Definition on_response (proxyRes : ProxyRes.t) : Js unit :=
  res_writeHead (ProxyRes.statusCode proxyRes) (ProxyRes.headers proxyRes) ;;
  proxyRes_pipe_res.

(** The callback given to [proxyReq.on('error', ...)]. *)
Definition on_error (e : Error) : Js unit :=
  console_error ("[Proxy Error] Problem with request to target: "
                 +:+ message e) ;;
  sent ← res_headersSent;
  if negb sent then
    res_writeHead 500 text_plain ;;
    res_end (Some ("Proxy Error: Could not reach target server. ("
                   +:+ message e +:+ ")"))
  else mret tt.

(** ** The runtime *)

(** What the runtime may deliver while the request is in progress. *)
Inductive Event :=
  | Response (proxyRes : ProxyRes.t)  (* ['response'] on [proxyReq] *)
  | RequestError (e : Error)          (* ['error'] on [proxyReq] *)
  | ResponseData (chunk : string)     (* ['data'] on [proxyRes] *)
  | ResponseEnd                       (* ['end'] on [proxyRes] *)
  | BodyData (chunk : string)         (* ['data'] on [req] *)
  | BodyEnd.                          (* ['end'] on [req] *)

(** An event runs the listeners registered for it, and nothing when there
    is none.  The listeners of a pipe write each chunk to the destination as
    it arrives and end the destination when the source ends; the pipe into
    [proxyReq] listens to ['error'] of [proxyReq] and is taken down by it. *)
Definition emit (ev : Event) : Js unit := λ w,
  match ev with
  | Response proxyRes =>
      if response_listener w
      then (remove_response_listener ;; on_response proxyRes) w
      else (Normal tt, w)
  | RequestError e =>
      (unpipe_req ;; if error_listener w then on_error e else mret tt) w
  | ResponseData chunk =>
      if res_pipe w then res_write chunk w else (Normal tt, w)
  | ResponseEnd =>
      if res_pipe w then (unpipe_res ;; res_end None) w else (Normal tt, w)
  | BodyData chunk =>
      if req_pipe w then proxyReq_write chunk w else (Normal tt, w)
  | BodyEnd =>
      if req_pipe w then proxyReq_end w else (Normal tt, w)
  end.

(** An exception that leaves the handler or a callback is caught by nothing
    in the program: it is recorded, and no further event is processed. *)
Definition settle (r : Completion unit * World) : World :=
  match r with
  | (Normal _, w) => w
  | (Throw e, w) =>
      mkWorld (headersSent w) (client w) (outbound w) (console w)
        (response_listener w) (error_listener w) (req_pipe w) (res_pipe w)
        (Some e)
  end.

(** The runtime calls the handler on a new request. *)
Definition serve (req : Req.t) : World := settle (requestHandler req fresh).

Definition deliver (w : World) (ev : Event) : World :=
  match uncaught w with
  | Some _ => w
  | None => settle (emit ev w)
  end.

Fixpoint run (evs : list Event) (w : World) : World :=
  match evs with
  | [] => w
  | ev :: evs => run evs (deliver w ev)
  end.

End Handler.

(** ** Sample values of [url.parse]

    A stand-in for [url.parse] that agrees with it on the targets listed,
    for evaluating the handler on concrete requests.  Elsewhere it answers
    as [url.parse] does on a plain relative reference: no protocol, no host,
    no port, and the string as path. *)
Definition parsed (protocol hostname port path : option string)
  : Completion Url.t :=
  Normal (Url.mk protocol hostname port path).

Definition sample_url_parse (s : string) : Completion Url.t :=
  if bool_decide (s = "http://example.test/foo?x=1") then
    parsed (Some "http:") (Some "example.test") None (Some "/foo?x=1")
  else if bool_decide (s = "https://example.test/submit") then
    parsed (Some "https:") (Some "example.test") None (Some "/submit")
  else if bool_decide (s = "https://example.test:8443/a") then
    parsed (Some "https:") (Some "example.test") (Some "8443") (Some "/a")
  else if bool_decide (s = "http:/foo") then
    parsed (Some "http:") None None (Some "/foo")
  else if bool_decide (s = "ftp://example.test/file") then
    parsed (Some "ftp:") (Some "example.test") None (Some "/file")
  else if bool_decide (s = "http://%@example.test/") then
    (* the part before [@] cannot be decoded: [URIError] *)
    Throw {| message := "URI malformed" |}
  else
    parsed None None None (Some s).

(** Sample requests. *)
Definition sample_headers : Headers :=
  {[ "host" := HeaderString "proxy.test"; "accept" := HeaderString "*/*" ]}.

Definition post_root : Req.t := Req.mk "/" "POST" sample_headers.
Definition get_foo : Req.t :=
  Req.mk "/http://example.test/foo?x=1" "GET" sample_headers.
Definition post_submit : Req.t :=
  Req.mk "/https://example.test/submit" "POST" sample_headers.
Definition get_port : Req.t :=
  Req.mk "/https://example.test:8443/a" "GET" sample_headers.
Definition get_hostless : Req.t := Req.mk "/http:/foo" "GET" sample_headers.
Definition get_ftp : Req.t :=
  Req.mk "/ftp://example.test/file" "GET" sample_headers.
Definition get_bad_auth : Req.t :=
  Req.mk "/http://%@example.test/" "GET" sample_headers.

Definition url_foo : Url.t :=
  Url.mk (Some "http:") (Some "example.test") None (Some "/foo?x=1").
Definition url_submit : Url.t :=
  Url.mk (Some "https:") (Some "example.test") None (Some "/submit").
Definition url_port : Url.t :=
  Url.mk (Some "https:") (Some "example.test") (Some "8443") (Some "/a").
Definition url_hostless : Url.t :=
  Url.mk (Some "http:") None None (Some "/foo").
Definition url_ftp : Url.t :=
  Url.mk (Some "ftp:") (Some "example.test") None (Some "/file").

(** A sample exchange: the client sends one chunk, the target answers 200
    with a body of two chunks. *)
Definition ok_response : ProxyRes.t :=
  ProxyRes.mk 200 {[ "content-type" := HeaderString "text/plain";
                     "connection" := HeaderString "keep-alive" ]}.

Definition sample_exchange : list Event :=
  [BodyData "payload"; Response ok_response; ResponseData "hel"; BodyEnd;
   ResponseData "lo"; ResponseEnd].

(** A sample failure of the outbound request. *)
Definition refused : Error := {| message := "connect ECONNREFUSED" |}.

(** ** Predicates used in the statements *)

(** The target of [req] is not empty and [url.parse] returns [u] on it,
    with protocol [http:] or [https:]: the request is forwarded. *)
Definition valid_target (url_parse : string → Completion Url.t)
    (req : Req.t) (u : Url.t) : Prop :=
  slice1 (Req.url req) ≠ EmptyString
  ∧ url_parse (slice1 (Req.url req)) = Normal u
  ∧ (Url.protocol u = Some "http:" ∨ Url.protocol u = Some "https:").


(** The calls on [res] that send headers, and their number in a log. *)
Definition is_head (c : ResCall) : bool :=
  match c with
  | WriteHead _ _ => true
  | WriteChunk _ => false
  | EndCall _ => false
  end.

Fixpoint heads (l : list ResCall) : nat :=
  match l with
  | [] => 0
  | c :: l => (if is_head c then 1 else 0) + heads l
  end.

(** Events of the outbound side (the target), and events of the inbound
    body. *)
Definition target_event (ev : Event) : bool :=
  match ev with
  | Response _ | RequestError _ | ResponseData _ | ResponseEnd => true
  | BodyData _ | BodyEnd => false
  end.


(** Invariant of [res]: nothing was called on it while [headersSent] is
    false, and afterwards its log starts with the one call that sent the
    headers. *)
Definition head_first (w : World) : Prop :=
  if headersSent w
  then ∃ s h rest, client w = WriteHead s h :: rest
                   ∧ Forall (λ c, is_head c = false) rest
  else client w = [].

(** Invariant of a forwarded request: the ['error'] listener stays
    registered, and as long as no headers were sent the ['response']
    listener is registered too, no pipe into [res] exists and nothing was
    thrown. *)
Definition forwarding (w : World) : Prop :=
  error_listener w = true
  ∧ (headersSent w = false →
     uncaught w = None ∧ response_listener w = true
     ∧ client w = [] ∧ res_pipe w = false).

(** A world without listeners or pipes. *)
Definition quiescent (w : World) : Prop :=
  response_listener w = false ∧ error_listener w = false
  ∧ req_pipe w = false ∧ res_pipe w = false.

(** A second sample failure, and events in which the outbound request
    fails twice. *)
Definition reset : Error := {| message := "socket hang up" |}.

Definition failing_exchange : list Event :=
  [BodyData "payload"; RequestError refused; BodyEnd; RequestError reset].

(** ** Shapes of the two logs *)

(** The three answers the program composes itself. *)
Definition help_answer : list ResCall :=
  [WriteHead 200 text_html; EndCall (Some help_page)].

Definition rejection : list ResCall :=
  [WriteHead 400 text_plain;
   EndCall (Some "Error: Only http or https protocols are supported.")].

Definition failure_answer (e : Error) : list ResCall :=
  [WriteHead 500 text_plain;
   EndCall (Some ("Proxy Error: Could not reach target server. ("
                  +:+ message e +:+ ")"))].

(** A response of the target as relayed so far: its head, one write per
    chunk, and the end once the target has ended. *)
Definition relayed (s : Z) (h : Headers) (cs : list string) (ended : bool)
  : list ResCall :=
  WriteHead s h :: map WriteChunk cs ++ (if ended then [EndCall None] else []).

(** The outbound side so far: the request, one write per chunk of the
    inbound body, and the end once the inbound body has ended. *)
Definition sent_upstream (m : ProtocolModule) (o : Options.t)
    (ds : list string) (ended : bool) : list OutCall :=
  Request m o :: map ReqWrite ds ++ (if ended then [ReqEnd] else []).

(** The phases of a forwarded request. *)
Inductive phase (w : World) : Prop :=
  | Awaiting :
      headersSent w = false → client w = [] →
      response_listener w = true → res_pipe w = false →
      uncaught w = None → phase w
  | Failed (e : Error) :
      headersSent w = true → client w = failure_answer e →
      response_listener w = true → res_pipe w = false →
      uncaught w = None → phase w
  | Crashed (e : Error) :
      headersSent w = true → client w = failure_answer e →
      response_listener w = false → res_pipe w = false →
      uncaught w = Some ERR_HTTP_HEADERS_SENT → phase w
  | Relaying (s : Z) (h : Headers) (cs : list string) :
      headersSent w = true → client w = relayed s h cs false →
      response_listener w = false → res_pipe w = true →
      uncaught w = None → phase w
  | Relayed (s : Z) (h : Headers) (cs : list string) :
      headersSent w = true → client w = relayed s h cs true →
      response_listener w = false → res_pipe w = false →
      uncaught w = None → phase w.

(** Invariant of the outbound side. *)
Definition upstream (w : World) : Prop :=
  if req_pipe w
  then ∃ m o ds, outbound w = sent_upstream m o ds false
  else outbound w = []
       ∨ ∃ m o ds ended, outbound w = sent_upstream m o ds ended.

(** The errors of the outbound request among the events. *)
Fixpoint errors_of (evs : list Event) : list Error :=
  match evs with
  | [] => []
  | RequestError e :: evs => e :: errors_of evs
  | _ :: evs => errors_of evs
  end.

(** The line [console.error] prints for an error of the outbound request. *)
Definition error_line (e : Error) : LogLine :=
  LogError ("[Proxy Error] Problem with request to target: " +:+ message e).


(** * Properties *)

Ltac world w :=
  destruct w as [hs cl ob co rl el rqp rsp un]; simpl in *.

Ltac step_event :=
  unfold deliver, emit, settle, on_response, on_error, res_headersSent, reads,
    remove_response_listener, unpipe_res, unpipe_req, proxyRes_pipe_res,
    res_writeHead,
    res_write, res_end, console_error, proxyReq_write, proxyReq_end,
    implicit_head, mbind, mret, Js_bind, Js_ret; cbn.

(** ** The runtime *)

Lemma deliver_quiescent w ev : quiescent w → deliver w ev = w.
Proof.
  unfold quiescent. world w. intros (-> & -> & -> & ->).
  destruct un; [done|]. by destruct ev.
Qed.

Lemma run_quiescent evs w : quiescent w → run evs w = w.
Proof.
  intros Hq. induction evs as [|ev evs IH]; simpl; [done|].
  by rewrite deliver_quiescent.
Qed.

(** ** Headers come first, and once *)

Lemma deliver_head_first w ev : head_first w → head_first (deliver w ev).
Proof.
  unfold head_first. world w. intros Hw.
  destruct un; [done|].
  destruct ev; step_event.
  - destruct rl; [|done]. cbn. destruct hs; cbn; [done|]. subst. cbn. eauto.
  - destruct el; [|done]. cbn. destruct hs; cbn; [done|]. subst. cbn.
    eexists _, _, _. split; [done|]. by constructor.
  - destruct rsp; [|done]. cbn. destruct hs; cbn.
    + destruct Hw as (s & h & rest & -> & Hrest).
      eexists _, _, _. split; [done|].
      apply Forall_app. split; [done|]. by constructor.
    + subst. cbn. eexists _, _, _. split; [done|]. by constructor.
  - destruct rsp; [|done]. cbn. destruct hs; cbn.
    + destruct Hw as (s & h & rest & -> & Hrest).
      eexists _, _, _. split; [done|].
      apply Forall_app. split; [done|]. by constructor.
    + subst. cbn. eexists _, _, _. split; [done|]. by constructor.
  - by destruct rqp.
  - by destruct rqp.
Qed.

Lemma run_head_first evs w : head_first w → head_first (run evs w).
Proof.
  revert w. induction evs as [|ev evs IH]; intros w Hw; simpl; [done|].
  by apply IH, deliver_head_first.
Qed.

Lemma heads_no_head rest :
  Forall (λ c, is_head c = false) rest → heads rest = 0.
Proof.
  induction 1 as [|c rest Hc _ IH]; simpl; [done|]. by rewrite Hc, IH.
Qed.

Lemma head_first_heads w : head_first w → heads (client w) ≤ 1.
Proof.
  unfold head_first. destruct (headersSent w).
  - intros (s & h & rest & -> & Hrest). simpl. by rewrite heads_no_head.
  - intros ->. simpl. lia.
Qed.

(** ** While a request is forwarded *)

Lemma deliver_forwarding w ev : forwarding w → forwarding (deliver w ev).
Proof.
  unfold forwarding. world w. intros [-> Hw].
  destruct un as [e|]; [done|].
  destruct hs.
  - destruct ev; step_event;
      repeat match goal with
             | |- context [if ?b then _ else _] => destruct b; cbn
             end; done.
  - destruct Hw as (_ & -> & -> & ->); [done|].
    destruct ev; step_event; try done; by destruct rqp.
Qed.

Lemma run_forwarding evs w : forwarding w → forwarding (run evs w).
Proof.
  revert w. induction evs as [|ev evs IH]; intros w Hw; simpl; [done|].
  by apply IH, deliver_forwarding.
Qed.

(** ** Relaying *)



Section Properties.

Variable url_parse : string → Completion Url.t.

(** ** The paths of the handler *)

Lemma serve_empty_target (req : Req.t) :
  slice1 (Req.url req) = EmptyString →
  serve url_parse req =
    mkWorld true [WriteHead 200 text_html; EndCall (Some help_page)]
      [] [] false false false false None.
Proof.
  intros Hempty. unfold serve, requestHandler. by rewrite Hempty.
Qed.

Lemma serve_parse_throws (req : Req.t) (e : Error) :
  slice1 (Req.url req) ≠ EmptyString →
  url_parse (slice1 (Req.url req)) = Throw e →
  serve url_parse req
  = mkWorld false [] [] [] false false false false (Some e).
Proof.
  intros Hne Hparse. unfold serve, requestHandler.
  destruct (slice1 (Req.url req)) as [|c t]; [done|].
  cbn [not_string]. unfold mbind, Js_bind, call. by rewrite Hparse.
Qed.

Lemma serve_other_protocol (req : Req.t) (u : Url.t) :
  slice1 (Req.url req) ≠ EmptyString →
  url_parse (slice1 (Req.url req)) = Normal u →
  Url.protocol u ≠ Some "http:" →
  Url.protocol u ≠ Some "https:" →
  serve url_parse req =
    mkWorld true
      [WriteHead 400 text_plain;
       EndCall (Some "Error: Only http or https protocols are supported.")]
      [] [] false false false false None.
Proof.
  intros Hne Hparse Hhttp Hhttps. unfold serve, requestHandler.
  destruct (slice1 (Req.url req)) as [|c t]; [done|].
  cbn [not_string]. unfold mbind, Js_bind, call. rewrite Hparse.
  unfold strict_ne. by rewrite !bool_decide_eq_false_2.
Qed.

Lemma serve_valid_target (req : Req.t) (u : Url.t) :
  valid_target url_parse req u →
  serve url_parse req =
    mkWorld false []
      [Request
         (if strict_eq (Url.protocol u) "https:" then https else http)
         {| Options.hostname := Url.hostname u;
            Options.port :=
              or_else PortString (Url.port u)
                (if strict_eq (Url.protocol u) "https:"
                 then PortNumber 443 else PortNumber 80);
            Options.path := Url.path u;
            Options.method := Req.method req;
            Options.headers := delete "host" (Req.headers req) |}]
      [Log ("[Proxy] Forwarding " +:+ Req.method req +:+ " request to: "
            +:+ slice1 (Req.url req))]
      true true true false None.
Proof.
  intros (Hne & Hparse & Hproto). unfold serve, requestHandler.
  destruct (slice1 (Req.url req)) as [|c t]; [done|].
  cbn [not_string]. unfold mbind, Js_bind, call. rewrite Hparse.
  destruct Hproto as [-> | ->]; reflexivity.
Qed.

(** The handler takes exactly one of its paths. *)
Lemma serve_cases (req : Req.t) :
  slice1 (Req.url req) = EmptyString
  ∨ (∃ e, slice1 (Req.url req) ≠ EmptyString
          ∧ url_parse (slice1 (Req.url req)) = Throw e)
  ∨ (∃ u, slice1 (Req.url req) ≠ EmptyString
          ∧ url_parse (slice1 (Req.url req)) = Normal u
          ∧ Url.protocol u ≠ Some "http:" ∧ Url.protocol u ≠ Some "https:")
  ∨ (∃ u, valid_target url_parse req u).
Proof.
  destruct (decide (slice1 (Req.url req) = EmptyString)) as [He|Hne];
    [by left|right].
  destruct (url_parse (slice1 (Req.url req))) as [u|e] eqn:Hparse;
    [right|left; eauto].
  destruct (decide (Url.protocol u = Some "http:")) as [H1|H1].
  { right. exists u. repeat split; eauto. }
  destruct (decide (Url.protocol u = Some "https:")) as [H2|H2].
  { right. exists u. repeat split; eauto. }
  left. eauto.
Qed.

Lemma serve_head_first (req : Req.t) : head_first (serve url_parse req).
Proof.
  destruct (serve_cases req)
    as [He|[(e & Hne & Hp)|[(u & Hne & Hp & H1 & H2)|(u & Hv)]]].
  - rewrite serve_empty_target by done. unfold head_first; simpl.
    eexists _, _, _. split; [done|]. by constructor.
  - by erewrite serve_parse_throws.
  - erewrite serve_other_protocol by done. unfold head_first; simpl.
    eexists _, _, _. split; [done|]. by constructor.
  - by erewrite serve_valid_target.
Qed.

Lemma serve_forwarding (req : Req.t) (u : Url.t) :
  valid_target url_parse req u → forwarding (serve url_parse req).
Proof. intros Hv. by erewrite serve_valid_target. Qed.

(** ** The outbound request *)

(** C1: when the target parses with protocol [http:] or [https:], the
    handler makes one outbound request; its method is the inbound method and
    its headers object is the inbound one without the property [host], every
    other property being present with the same value. *)
Theorem outbound_method_and_headers (req : Req.t) (u : Url.t) :
  valid_target url_parse req u →
  ∃ m o,
    outbound (serve url_parse req) = [Request m o]
    ∧ Options.method o = Req.method req
    ∧ Options.headers o = delete "host" (Req.headers req)
    ∧ Options.headers o !! "host" = None
    ∧ ∀ name, name ≠ "host" →
        Options.headers o !! name = Req.headers req !! name.
Proof.
  intros Hv. rewrite (serve_valid_target req u Hv). cbn.
  eexists _, _. split; [reflexivity|]. cbn.
  split; [done|]. split; [done|].
  split; [apply lookup_delete_eq|].
  intros name Hname. by apply lookup_delete_ne.
Qed.

(** C7: the outbound request carries the port of the parsed URL when it has
    one, and otherwise 443 under [https:] and 80 under [http:]; its path and
    host are those of the parsed URL; it is made through the [https] module
    exactly under [https:], and through [http] under [http:]. *)
Theorem outbound_port_path_transport (req : Req.t) (u : Url.t) :
  valid_target url_parse req u →
  ∃ m o,
    outbound (serve url_parse req) = [Request m o]
    ∧ (∀ p, Url.port u = Some p → p ≠ EmptyString →
         Options.port o = PortString p)
    ∧ (Url.port u = None ∨ Url.port u = Some EmptyString →
         (Url.protocol u = Some "https:" → Options.port o = PortNumber 443)
         ∧ (Url.protocol u = Some "http:" → Options.port o = PortNumber 80))
    ∧ Options.path o = Url.path u
    ∧ Options.hostname o = Url.hostname u
    ∧ (Url.protocol u = Some "https:" → m = https)
    ∧ (Url.protocol u = Some "http:" → m = http).
Proof.
  intros Hv. rewrite (serve_valid_target req u Hv). cbn.
  eexists _, _. split; [reflexivity|]. cbn.
  split; [|split; [|split; [done|split; [done|]]]].
  - intros p -> Hp. by destruct p.
  - intros [-> | ->]; cbn; split; by intros ->.
  - split; by intros ->.
Qed.

(** ** Validation *)

(** X10: when the target is not empty and [url.parse] returns an object
    whose protocol is neither [http:] nor [https:], the handler answers 400
    with [Content-Type: text/plain] and the fixed body, and no outbound call
    is made, then or later. *)
Theorem other_protocol_rejected (req : Req.t) (u : Url.t) :
  slice1 (Req.url req) ≠ EmptyString →
  url_parse (slice1 (Req.url req)) = Normal u →
  Url.protocol u ≠ Some "http:" →
  Url.protocol u ≠ Some "https:" →
  ∀ evs,
    client (run evs (serve url_parse req))
    = [WriteHead 400 {[ "Content-Type" := HeaderString "text/plain" ]};
       EndCall (Some "Error: Only http or https protocols are supported.")]
    ∧ outbound (run evs (serve url_parse req)) = [].
Proof.
  intros Hne Hparse Hhttp Hhttps evs.
  rewrite (serve_other_protocol req u) by done.
  by rewrite run_quiescent.
Qed.

(** C5: when the request URL without its first character is empty, the
    handler answers 200 with [Content-Type: text/html] and the help page,
    whatever the method, and no outbound call is made, then or later. *)
Theorem empty_target_help_page (req : Req.t) :
  slice1 (Req.url req) = EmptyString →
  ∀ evs,
    client (run evs (serve url_parse req))
    = [WriteHead 200 {[ "Content-Type" := HeaderString "text/html" ]};
       EndCall (Some help_page)]
    ∧ outbound (run evs (serve url_parse req)) = [].
Proof.
  intros Hempty evs. rewrite serve_empty_target by done.
  by rewrite run_quiescent.
Qed.

(** C9: for a non-empty target on which [url.parse] returns, the handler
    answers 400 exactly when the parsed protocol is neither [http:] nor
    [https:]; when the protocol is one of the two and the parsed hostname is
    [null], the outbound request is made all the same, with that hostname. *)
Theorem rejection_iff_protocol_differs (req : Req.t) (u : Url.t) :
  slice1 (Req.url req) ≠ EmptyString →
  url_parse (slice1 (Req.url req)) = Normal u →
  (client (serve url_parse req)
   = [WriteHead 400 {[ "Content-Type" := HeaderString "text/plain" ]};
      EndCall (Some "Error: Only http or https protocols are supported.")]
   ↔ Url.protocol u ≠ Some "http:" ∧ Url.protocol u ≠ Some "https:")
  ∧ (Url.protocol u = Some "http:" ∨ Url.protocol u = Some "https:" →
     Url.hostname u = None →
     ∃ m o, outbound (serve url_parse req) = [Request m o]
            ∧ client (serve url_parse req) = []
            ∧ Options.hostname o = None).
Proof.
  intros Hne Hparse. split.
  - split.
    + intros Hclient.
      destruct (decide (Url.protocol u = Some "http:")) as [H1|H1].
      { rewrite (serve_valid_target req u) in Hclient; [done|].
        repeat split; eauto. }
      destruct (decide (Url.protocol u = Some "https:")) as [H2|H2]; [|done].
      rewrite (serve_valid_target req u) in Hclient; [done|].
      repeat split; eauto.
    + intros [H1 H2]. by rewrite (serve_other_protocol req u).
  - intros Hproto Hhost.
    rewrite (serve_valid_target req u) by done. cbn.
    eexists _, _. split; [reflexivity|]. by split.
Qed.

(** ** The response *)


(** C4: an ['error'] of the outbound request that arrives while no headers
    have been sent is answered by 500 with [Content-Type: text/plain] and
    the body carrying the message of the error; one that arrives after the
    headers were sent changes nothing of what the client is sent. *)
Theorem request_error_reported
    (req : Req.t) (u : Url.t) (evs : list Event) (e : Error) :
  valid_target url_parse req u →
  (headersSent (run evs (serve url_parse req)) = false →
   client (deliver (run evs (serve url_parse req)) (RequestError e))
   = [WriteHead 500 {[ "Content-Type" := HeaderString "text/plain" ]};
      EndCall (Some ("Proxy Error: Could not reach target server. ("
                     +:+ message e +:+ ")"))])
  ∧ (headersSent (run evs (serve url_parse req)) = true →
     client (deliver (run evs (serve url_parse req)) (RequestError e))
     = client (run evs (serve url_parse req))).
Proof.
  intros Hv.
  pose proof (run_forwarding evs _ (serve_forwarding req u Hv)) as [Hel Hw].
  destruct (run evs (serve url_parse req)) as [hs cl ob co rl el rqp rsp un].
  simpl in *. subst. split; intros ->.
  - destruct Hw as (-> & -> & -> & ->); [done|]. by step_event.
  - destruct un; by step_event.
Qed.


(** C10: whatever events follow, at most one call on [res] sends headers;
    the handler itself takes exactly one of its paths, which are the help
    page, the 400 answer, the forwarding (nothing sent yet) and the
    exception of [url.parse]; the ['error'] callback sends headers only
    when [res.headersSent] is false, and it never raises: with the headers
    sent it makes no call to [writeHead]. *)
Theorem headers_written_at_most_once (req : Req.t) (evs : list Event) :
  heads (client (run evs (serve url_parse req))) ≤ 1
  ∧ ((client (serve url_parse req)
      = [WriteHead 200 text_html; EndCall (Some help_page)]
      ∧ outbound (serve url_parse req) = [])
     ∨ (client (serve url_parse req)
        = [WriteHead 400 text_plain;
           EndCall
             (Some "Error: Only http or https protocols are supported.")]
        ∧ outbound (serve url_parse req) = [])
     ∨ (client (serve url_parse req) = []
        ∧ ∃ m o, outbound (serve url_parse req) = [Request m o])
     ∨ (client (serve url_parse req) = []
        ∧ outbound (serve url_parse req) = []
        ∧ ∃ e, uncaught (serve url_parse req) = Some e))
  ∧ (∀ w e,
      client (settle (on_error e w))
      = client w ++
        (if headersSent w then []
         else [WriteHead 500 text_plain;
               EndCall (Some ("Proxy Error: Could not reach target server. ("
                              +:+ message e +:+ ")"))]))
  ∧ (∀ w e, ∃ w', on_error e w = (Normal tt, w')).
Proof.
  split; [|split; [|split]].
  - apply head_first_heads, run_head_first, serve_head_first.
  - destruct (serve_cases req)
      as [He|[(e & Hne & Hp)|[(u & Hne & Hp & H1 & H2)|(u & Hv)]]].
    + left. by rewrite serve_empty_target.
    + do 3 right. rewrite (serve_parse_throws req e) by done. cbn. eauto.
    + right; left. by rewrite (serve_other_protocol req u).
    + do 2 right; left. rewrite (serve_valid_target req u Hv). cbn. eauto.
  - intros w e. world w. step_event.
    destruct hs; cbn; [by rewrite app_nil_r|by rewrite <- app_assoc].
  - intros w e. world w. step_event. destruct hs; cbn; eauto.
Qed.

End Properties.

(** * The handler on the sample requests *)

Ltac sample_target :=
  split; [done|split; [vm_compute; reflexivity|(by left) || (by right)]].

Lemma outbound_method_and_headers_witness :
  ∃ m o,
    outbound (serve sample_url_parse post_submit) = [Request m o]
    ∧ Options.method o = "POST"
    ∧ Options.headers o = delete "host" sample_headers
    ∧ Options.headers o !! "host" = None
    ∧ ∀ name, name ≠ "host" →
        Options.headers o !! name = sample_headers !! name.
Proof.
  apply (outbound_method_and_headers sample_url_parse post_submit url_submit).
  sample_target.
Defined.

Lemma outbound_port_path_transport_witness :
  ∃ m o,
    outbound (serve sample_url_parse get_port) = [Request m o]
    ∧ (∀ p, Url.port url_port = Some p → p ≠ EmptyString →
         Options.port o = PortString p)
    ∧ (Url.port url_port = None ∨ Url.port url_port = Some EmptyString →
         (Url.protocol url_port = Some "https:" →
          Options.port o = PortNumber 443)
         ∧ (Url.protocol url_port = Some "http:" →
            Options.port o = PortNumber 80))
    ∧ Options.path o = Some "/a"
    ∧ Options.hostname o = Some "example.test"
    ∧ (Url.protocol url_port = Some "https:" → m = https)
    ∧ (Url.protocol url_port = Some "http:" → m = http).
Proof.
  apply (outbound_port_path_transport sample_url_parse get_port url_port).
  sample_target.
Defined.

Lemma other_protocol_rejected_witness :
  client (run sample_exchange (serve sample_url_parse get_ftp))
  = [WriteHead 400 {[ "Content-Type" := HeaderString "text/plain" ]};
     EndCall (Some "Error: Only http or https protocols are supported.")]
  ∧ outbound (run sample_exchange (serve sample_url_parse get_ftp)) = [].
Proof.
  apply (other_protocol_rejected sample_url_parse get_ftp url_ftp).
  - done.
  - vm_compute. reflexivity.
  - done.
  - done.
Defined.

Lemma empty_target_help_page_witness :
  client (run sample_exchange (serve sample_url_parse post_root))
  = [WriteHead 200 {[ "Content-Type" := HeaderString "text/html" ]};
     EndCall (Some help_page)]
  ∧ outbound (run sample_exchange (serve sample_url_parse post_root)) = [].
Proof.
  apply (empty_target_help_page sample_url_parse post_root). reflexivity.
Defined.

Lemma rejection_iff_protocol_differs_witness :
  (client (serve sample_url_parse get_hostless)
   = [WriteHead 400 {[ "Content-Type" := HeaderString "text/plain" ]};
      EndCall (Some "Error: Only http or https protocols are supported.")]
   ↔ Url.protocol url_hostless ≠ Some "http:"
     ∧ Url.protocol url_hostless ≠ Some "https:")
  ∧ (Url.protocol url_hostless = Some "http:"
     ∨ Url.protocol url_hostless = Some "https:" →
     Url.hostname url_hostless = None →
     ∃ m o, outbound (serve sample_url_parse get_hostless) = [Request m o]
            ∧ client (serve sample_url_parse get_hostless) = []
            ∧ Options.hostname o = None).
Proof.
  apply (rejection_iff_protocol_differs sample_url_parse get_hostless
           url_hostless).
  - done.
  - vm_compute. reflexivity.
Defined.


Lemma request_error_reported_witness :
  (headersSent (run [BodyEnd] (serve sample_url_parse get_foo)) = false →
   client (deliver (run [BodyEnd] (serve sample_url_parse get_foo))
             (RequestError refused))
   = [WriteHead 500 {[ "Content-Type" := HeaderString "text/plain" ]};
      EndCall (Some ("Proxy Error: Could not reach target server. ("
                     +:+ message refused +:+ ")"))])
  ∧ (headersSent (run [BodyEnd] (serve sample_url_parse get_foo)) = true →
     client (deliver (run [BodyEnd] (serve sample_url_parse get_foo))
               (RequestError refused))
     = client (run [BodyEnd] (serve sample_url_parse get_foo))).
Proof.
  apply (request_error_reported sample_url_parse get_foo url_foo [BodyEnd]
           refused).
  sample_target.
Defined.


(** ** An exception of [url.parse] *)

(** C8: on the request [GET /http://%@example.test/], where [url.parse]
    throws, the exception leaves [requestHandler]: nothing is called on
    [res], no listener is registered and the exception is uncaught. *)
Theorem exception_of_parse_uncaught :
  serve sample_url_parse get_bad_auth
  = mkWorld false [] [] [] false false false false
      (Some {| message := "URI malformed" |}).
Proof.
  apply serve_parse_throws; [done|]. vm_compute. reflexivity.
Qed.

(** C2: the target of [GET /http://%@example.test/] is malformed, and the
    request is not answered by 400: [url.parse] throws on it, so that
    nothing is called on [res], then or later, and the exception is
    uncaught. *)
Theorem malformed_target_not_rejected (evs : list Event) :
  client (run evs (serve sample_url_parse get_bad_auth)) = []
  ∧ outbound (run evs (serve sample_url_parse get_bad_auth)) = []
  ∧ uncaught (run evs (serve sample_url_parse get_bad_auth))
    = Some {| message := "URI malformed" |}.
Proof.
  rewrite (serve_parse_throws sample_url_parse get_bad_auth
             {| message := "URI malformed" |});
    [|done|vm_compute; reflexivity].
  by rewrite run_quiescent.
Qed.

(** ** The two scenarios of the specification *)

Example get_foo_hello :
  client (run [Response (ProxyRes.mk 200 ∅); ResponseData "hello";
               ResponseEnd; BodyEnd]
            (serve sample_url_parse get_foo))
  = [WriteHead 200 ∅; WriteChunk "hello"; EndCall None].
Proof. vm_compute. reflexivity. Qed.

Example post_submit_payload :
  outbound (run [BodyData "payload"; BodyEnd]
              (serve sample_url_parse post_submit))
  = [Request https
       {| Options.hostname := Some "example.test";
          Options.port := PortNumber 443;
          Options.path := Some "/submit";
          Options.method := "POST";
          Options.headers := {[ "accept" := HeaderString "*/*" ]} |};
     ReqWrite "payload"; ReqEnd].
Proof. vm_compute. reflexivity. Qed.

(** A response after the 500 answer: [writeHead] throws, and the client
    has been sent the 500 answer only. *)
Example response_after_error :
  run [RequestError refused; Response ok_response]
    (serve sample_url_parse get_foo)
  = mkWorld true
      [WriteHead 500 text_plain;
       EndCall (Some "Proxy Error: Could not reach target server. (connect ECONNREFUSED)")]
      [Request http
         {| Options.hostname := Some "example.test";
            Options.port := PortNumber 80;
            Options.path := Some "/foo?x=1";
            Options.method := "GET";
            Options.headers := {[ "accept" := HeaderString "*/*" ]} |}]
      [Log "[Proxy] Forwarding GET request to: http://example.test/foo?x=1";
       LogError "[Proxy Error] Problem with request to target: connect ECONNREFUSED"]
      false true false false (Some ERR_HTTP_HEADERS_SENT).
Proof. vm_compute. reflexivity. Qed.

(** * Further properties of the handler *)

Lemma run_uncaught evs w e : uncaught w = Some e → run evs w = w.
Proof.
  intros Hun. induction evs as [|ev evs IH]; simpl; [done|].
  unfold deliver. by rewrite Hun.
Qed.

(** ** Phases *)

Lemma relayed_snoc s h cs c :
  relayed s h cs false ++ [WriteChunk c] = relayed s h (cs ++ [c]) false.
Proof. unfold relayed. by rewrite !app_nil_r, map_app. Qed.

Lemma relayed_end s h cs :
  relayed s h cs false ++ [EndCall None] = relayed s h cs true.
Proof. unfold relayed. by rewrite app_nil_r. Qed.

Lemma deliver_phase w ev : phase w → phase (deliver w ev).
Proof.
  intros Hw.
  destruct Hw as [? ? ? ? ?|e0 ? ? ? ? ?|e0 ? ? ? ? ?|s h cs ? ? ? ? ?
                 |s h cs ? ? ? ? ?];
    world w; subst; destruct ev as [r|e|c| |d| ]; step_event;
    repeat match goal with
           | |- context [if ?b then _ else _] => destruct b; cbn
           end;
    try first [ by eapply Awaiting | by eapply Failed | by eapply Crashed
              | by eapply Relaying | by eapply Relayed
              | by eapply (Relaying _ _ _ []) ].
  - apply (Relaying _ s h (cs ++ [c])); try done.
    cbn [client]. by rewrite <- relayed_snoc.
  - apply (Relayed _ s h cs); try done.
    cbn [client]. by rewrite <- relayed_end.
Qed.

Lemma run_phase evs w : phase w → phase (run evs w).
Proof.
  revert w. induction evs as [|ev evs IH]; intros w Hw; simpl; [done|].
  by apply IH, deliver_phase.
Qed.

(** ** Errors of the outbound request *)

Lemma errors_of_cons ev evs :
  errors_of (ev :: evs) = errors_of [ev] ++ errors_of evs.
Proof. by destruct ev. Qed.

(** After the headers, without a response of the target among the events,
    nothing more is called on [res]. *)
Lemma run_errors_only evs : ∀ w es,
  uncaught w = None → headersSent w = true → res_pipe w = false →
  List.filter target_event evs = map RequestError es →
  client (run evs w) = client w ∧ uncaught (run evs w) = None.
Proof.
  induction evs as [|ev evs IH]; intros w es Hun Hhs Hrp Ht; [done|].
  simpl. world w. subst.
  destruct ev as [r|e|c| |d| ]; simpl in Ht;
    try (destruct es; discriminate Ht).
  - destruct es as [|e' es]; [done|]. injection Ht as _ Ht.
    step_event. destruct el; cbn; by eapply IH.
  - step_event. destruct rqp; cbn; by eapply IH.
  - step_event. destruct rqp; cbn; by eapply IH.
Qed.

Lemma run_first_error evs : ∀ w e es,
  uncaught w = None → headersSent w = false → client w = [] →
  error_listener w = true → res_pipe w = false →
  List.filter target_event evs = map RequestError (e :: es) →
  client (run evs w) = failure_answer e ∧ uncaught (run evs w) = None.
Proof.
  induction evs as [|ev evs IH]; intros w e es Hun Hhs Hcl Hel Hrp Ht; [done|].
  simpl. world w. subst.
  destruct ev as [r|e'|c| |d| ]; simpl in Ht; try discriminate Ht.
  - injection Ht as -> Ht. step_event.
    match goal with
    | |- context [run evs ?w'] =>
        destruct (run_errors_only evs w' es) as [Hc Hu]; [done..|]
    end.
    by rewrite Hc, Hu.
  - step_event. destruct rqp; cbn; by eapply IH.
  - step_event. destruct rqp; cbn; by eapply IH.
Qed.

(** ** The console *)

Lemma deliver_console w ev :
  error_listener w = true → uncaught w = None →
  console (deliver w ev) = console w ++ map error_line (errors_of [ev])
  ∧ error_listener (deliver w ev) = true.
Proof.
  world w. intros -> ->. destruct ev as [r|e|c| |d| ]; step_event;
    repeat match goal with
           | |- context [if ?b then _ else _] => destruct b; cbn
           end; by rewrite ?app_nil_r.
Qed.

Lemma run_console evs : ∀ w,
  error_listener w = true → uncaught (run evs w) = None →
  console (run evs w) = console w ++ map error_line (errors_of evs).
Proof.
  induction evs as [|ev evs IH]; intros w Hel Hun; cbn [run] in *.
  - simpl. by rewrite app_nil_r.
  - destruct (uncaught w) as [x|] eqn:Hw.
    + unfold deliver in Hun. rewrite Hw in Hun.
      rewrite (run_uncaught evs w x Hw) in Hun. congruence.
    + destruct (deliver_console w ev Hel Hw) as [Hco Hel'].
      rewrite IH, Hco by done.
      by rewrite (errors_of_cons ev evs), map_app, app_assoc.
Qed.

(** ** The two sides do not interfere *)




(** ** The outbound side *)

Lemma deliver_upstream w ev : upstream w → upstream (deliver w ev).
Proof.
  unfold upstream. world w. intros Hw. destruct un; [done|].
  destruct ev as [r|e|c| |d| ], hs, rl, el, rqp, rsp; step_event; try done.
  all: destruct Hw as (m & o & ds & ->).
  all: first [ exists m, o, (ds ++ [d]); unfold sent_upstream;
               by rewrite !app_nil_r, map_app
             | right; exists m, o, ds, true; unfold sent_upstream;
               by rewrite !app_nil_r
             | right; by exists m, o, ds, false ].
Qed.

Lemma run_upstream evs w : upstream w → upstream (run evs w).
Proof.
  revert w. induction evs as [|ev evs IH]; intros w Hw; simpl; [done|].
  by apply IH, deliver_upstream.
Qed.


Section More.

Variable url_parse : string → Completion Url.t.

Lemma serve_phase (req : Req.t) (u : Url.t) :
  valid_target url_parse req u → phase (serve url_parse req).
Proof. intros Hv. rewrite (serve_valid_target _ req u Hv). by apply Awaiting. Qed.

(** X1: whatever the request and the events that follow, what has been
    called on [res] is nothing at all, or one of the three answers of the
    program (help page, rejection, failure), or a response of the target:
    its head, then its chunks, then at most one end, which is last. *)
Theorem client_log_shape (req : Req.t) (evs : list Event) :
  client (run evs (serve url_parse req)) = []
  ∨ client (run evs (serve url_parse req)) = help_answer
  ∨ client (run evs (serve url_parse req)) = rejection
  ∨ (∃ e, client (run evs (serve url_parse req)) = failure_answer e)
  ∨ (∃ s h cs ended,
       client (run evs (serve url_parse req)) = relayed s h cs ended).
Proof.
  destruct (serve_cases url_parse req)
    as [He|[(e & Hne & Hp)|[(u & Hne & Hp & H1 & H2)|(u & Hv)]]].
  - rewrite serve_empty_target by done. rewrite run_quiescent by done.
    by right; left.
  - rewrite (serve_parse_throws _ req e) by done.
    rewrite run_quiescent by done. by left.
  - rewrite (serve_other_protocol _ req u) by done.
    rewrite run_quiescent by done. by right; right; left.
  - destruct (run_phase evs _ (serve_phase req u Hv))
      as [? Hc|e ? Hc|e ? Hc|s h cs ? Hc|s h cs ? Hc]; rewrite Hc; eauto 10.
Qed.

(** X3: when the first event of the target is an error of the outbound
    request and only such errors follow, the client is sent the failure
    answer carrying the message of the first error; the later errors change
    nothing of it, and no exception escapes. *)
Theorem first_error_answers
    (req : Req.t) (u : Url.t) (evs : list Event) (e : Error)
    (es : list Error) :
  valid_target url_parse req u →
  List.filter target_event evs = map RequestError (e :: es) →
  client (run evs (serve url_parse req)) = failure_answer e
  ∧ uncaught (run evs (serve url_parse req)) = None.
Proof.
  intros Hv Ht. rewrite (serve_valid_target _ req u Hv).
  by apply (run_first_error evs _ e es).
Qed.

(** X4: when a request is forwarded and no exception escapes, the console
    holds the line of the forwarding, with the method and the target, and
    after it one line for each error of the outbound request, in order,
    whether or not the error was answered. *)
Theorem console_lines (req : Req.t) (u : Url.t) (evs : list Event) :
  valid_target url_parse req u →
  uncaught (run evs (serve url_parse req)) = None →
  console (run evs (serve url_parse req))
  = Log ("[Proxy] Forwarding " +:+ Req.method req +:+ " request to: "
         +:+ slice1 (Req.url req))
    :: map error_line (errors_of evs).
Proof.
  intros Hv Hun. rewrite run_console; [|by rewrite (serve_valid_target _ req u Hv)|done].
  by rewrite (serve_valid_target _ req u Hv).
Qed.

(** X5: the help page is what the client is sent exactly when the target
    is empty: no other request, under no events, is answered by it. *)
Theorem help_page_only_for_empty_target (req : Req.t) (evs : list Event) :
  client (run evs (serve url_parse req)) = help_answer
  ↔ slice1 (Req.url req) = EmptyString.
Proof.
  split.
  - intros Hc.
    destruct (serve_cases url_parse req)
      as [He|[(e & Hne & Hp)|[(u & Hne & Hp & H1 & H2)|(u & Hv)]]]; [done|..].
    + rewrite (serve_parse_throws _ req e) in Hc by done.
      by rewrite run_quiescent in Hc.
    + rewrite (serve_other_protocol _ req u) in Hc by done.
      by rewrite run_quiescent in Hc.
    + destruct (run_phase evs _ (serve_phase req u Hv))
        as [? Hcl|e ? Hcl|e ? Hcl|s h cs ? Hcl|s h cs ? Hcl];
        rewrite Hcl in Hc; try done; by destruct cs as [|c [|c' cs]].
  - intros He. rewrite serve_empty_target by done.
    by rewrite run_quiescent.
Qed.


(** X7: whatever the request and the events that follow, the outbound side
    has seen nothing, or exactly one request followed by writes of body
    chunks and at most one end, which is last: no second request is made
    and nothing is written after the end. *)
Theorem outbound_log_shape (req : Req.t) (evs : list Event) :
  outbound (run evs (serve url_parse req)) = []
  ∨ ∃ m o ds ended,
      outbound (run evs (serve url_parse req)) = sent_upstream m o ds ended.
Proof.
  assert (upstream (serve url_parse req)) as Hs.
  { destruct (serve_cases url_parse req)
      as [He|[(e & Hne & Hp)|[(u & Hne & Hp & H1 & H2)|(u & Hv)]]].
    - rewrite serve_empty_target by done. by left.
    - rewrite (serve_parse_throws _ req e) by done. by left.
    - rewrite (serve_other_protocol _ req u) by done. by left.
    - rewrite (serve_valid_target _ req u Hv). unfold upstream; cbn.
      by eexists _, _, []. }
  pose proof (run_upstream evs _ Hs) as Hu. unfold upstream in Hu.
  destruct (req_pipe _).
  - destruct Hu as (m & o & ds & ->). right. by exists m, o, ds, false.
  - destruct Hu as [->|(m & o & ds & ended & ->)]; [by left|].
    right. by exists m, o, ds, ended.
Qed.

End More.

Lemma first_error_answers_witness :
  client (run failing_exchange (serve sample_url_parse post_submit))
  = failure_answer refused
  ∧ uncaught (run failing_exchange (serve sample_url_parse post_submit))
    = None.
Proof.
  apply (first_error_answers sample_url_parse post_submit url_submit
           failing_exchange refused [reset]).
  - sample_target.
  - reflexivity.
Defined.

Lemma console_lines_witness :
  console (run failing_exchange (serve sample_url_parse post_submit))
  = Log ("[Proxy] Forwarding " +:+ Req.method post_submit
         +:+ " request to: " +:+ slice1 (Req.url post_submit))
    :: map error_line (errors_of failing_exchange).
Proof.
  apply (console_lines sample_url_parse post_submit url_submit).
  - sample_target.
  - vm_compute. reflexivity.
Defined.
